(** * ProductScraper: URL gate, scrape session and export encoders

    A shallow embedding of [src/components/ProductScraper.tsx].

    - JavaScript strings are sequences of UTF-16 code units: [jsstring] is
      [list N], and the string primitives the component calls ([includes],
      [trim], [replace] with a global pattern, [Array.prototype.join]) are
      written out over code units.
    - The component state is the triple of [useState] cells
      ([url], [loading], [productData]); handlers run in a small
      state/log/exception monad whose log records the calls made to the
      collaborators (toast, console, axios, file-saver, XLSX).
    - The [async] handler is cut at its single [await]: the part that runs
      inside the click event, and the continuation that runs when the
      request settles. *)

From Stdlib Require Import List NArith ZArith Bool Ascii String Lia.
From Stdlib Require DecimalString.
Import ListNotations.

Set Implicit Arguments.

(** ** JavaScript strings *)

Module JsString.

Definition jsstring := list N.

(** An ASCII source literal as code units. *)
Definition lit (s : string) : jsstring :=
  map N_of_ascii (list_ascii_of_string s).

(** The double-quote character, U+0022. *)
Definition dquote : N := 34%N.

(** The line feed, U+000A. *)
Definition newline : N := 10%N.

Fixpoint startsWith (s p : jsstring) : bool :=
  match p, s with
  | [], _ => true
  | _ :: _, [] => false
  | c :: p', d :: s' => N.eqb c d && startsWith s' p'
  end.

(** [String.prototype.includes]: [p] occurs in [s] at some position. *)
Fixpoint includes (s p : jsstring) : bool :=
  startsWith s p ||
  match s with
  | [] => false
  | _ :: s' => includes s' p
  end.

(** WhiteSpace and LineTerminator code points of ECMAScript, the ones
    [String.prototype.trim] strips. *)
Definition isWhiteSpace (c : N) : bool :=
  (N.leb 9 c && N.leb c 13)            (* TAB LF VT FF CR *)
  || N.eqb c 32 || N.eqb c 160         (* SP, NBSP *)
  || N.eqb c 5760                      (* U+1680 *)
  || (N.leb 8192 c && N.leb c 8202)    (* U+2000 .. U+200A *)
  || N.eqb c 8232 || N.eqb c 8233      (* LS, PS *)
  || N.eqb c 8239 || N.eqb c 8287      (* U+202F, U+205F *)
  || N.eqb c 12288 || N.eqb c 65279.   (* U+3000, BOM *)

Fixpoint trimStart (s : jsstring) : jsstring :=
  match s with
  | [] => []
  | c :: s' => if isWhiteSpace c then trimStart s' else s
  end.

Definition trimEnd (s : jsstring) : jsstring :=
  rev (trimStart (rev s)).

Definition trim (s : jsstring) : jsstring :=
  trimEnd (trimStart s).

(** ToBoolean on a string: only the empty string is falsy. *)
Definition truthy (s : jsstring) : bool :=
  match s with
  | [] => false
  | _ :: _ => true
  end.

(** [String.prototype.replace] with a global one-character pattern:
    every occurrence of the code unit [c] is replaced by [by_]. *)
Fixpoint replaceAll (c : N) (by_ : jsstring) (s : jsstring) : jsstring :=
  match s with
  | [] => []
  | d :: s' => (if N.eqb d c then by_ else [d]) ++ replaceAll c by_ s'
  end.

(** [Array.prototype.join] on an array of strings. *)
Fixpoint join (sep : jsstring) (xs : list jsstring) : jsstring :=
  match xs with
  | [] => []
  | [x] => x
  | x :: rest => x ++ sep ++ join sep rest
  end.

(** [p] occurs in [s]: the declarative reading of [includes]. *)
Definition occurs_in (p s : jsstring) : Prop :=
  exists before after, s = before ++ p ++ after.

End JsString.

Import JsString.

(** ** The URL gate *)

(** [validateAmazonUrl], lines 29-31. *)
Definition validateAmazonUrl (url : jsstring) : bool :=
  includes url (lit "amazon.") &&
  (includes url (lit "/dp/") || includes url (lit "/gp/")).

(** ** The collaborators *)

(** The SheetJS calls of [exportToExcel], on the values the component
    passes: JS objects with string values are ordered key/value lists (an
    object literal enumerates its keys in insertion order), a worksheet is
    its grid of cells, a workbook the ordered list of its named sheets. *)
Module XLSX.

Definition JsObject := list (jsstring * jsstring).
Definition Cell := option jsstring.
Definition WorkSheet := list (list Cell).
Definition WorkBook := list (jsstring * WorkSheet).

Definition str_eqb (a b : jsstring) : bool :=
  if list_eq_dec N.eq_dec a b then true else false.

Fixpoint lookup (k : jsstring) (o : JsObject) : Cell :=
  match o with
  | [] => None
  | (k', v) :: o' => if str_eqb k k' then Some v else lookup k o'
  end.

(** The header: every key of every row, in order of first appearance. *)
Definition add_keys (hdr : list jsstring) (o : JsObject) : list jsstring :=
  fold_left
    (fun h kv => if existsb (str_eqb (fst kv)) h then h else h ++ [fst kv])
    o hdr.

(** [XLSX.utils.json_to_sheet]: a header row, then one row per object. *)
Definition json_to_sheet (rows : list JsObject) : WorkSheet :=
  let hdr := fold_left add_keys rows [] in
  map Some hdr :: map (fun o => map (fun k => lookup k o) hdr) rows.

Definition book_new : WorkBook := [].

Definition book_append_sheet
    (wb : WorkBook) (ws : WorkSheet) (name : jsstring) : WorkBook :=
  wb ++ [(name, ws)].

End XLSX.

(** The four notifications the component raises through [toast]. *)
Inductive Toast := UrlRequired | InvalidUrl | ScrapeSuccess | ScrapeFailed.

Definition toast_title (t : Toast) : jsstring :=
  match t with
  | UrlRequired => lit "URL Required"
  | InvalidUrl => lit "Invalid URL"
  | ScrapeSuccess => lit "Success!"
  | ScrapeFailed => lit "Scraping Failed"
  end.

Definition toast_description (t : Toast) : jsstring :=
  match t with
  | UrlRequired => lit "Please enter an Amazon product URL"
  | InvalidUrl => lit "Please enter a valid Amazon product URL"
  | ScrapeSuccess => lit "Product data scraped successfully"
  | ScrapeFailed => lit "Failed to scrape product data. Please try again."
  end.

(** [variant: 'destructive'] *)
Definition toast_destructive (t : Toast) : bool :=
  match t with
  | ScrapeSuccess => false
  | _ => true
  end.

(** Why an axios promise rejects: no response at all, or a response whose
    status fails the default [validateStatus]. *)
Inductive AxiosError :=
| NetworkError
| BadStatus (status : Z).

(** A call made to a collaborator. *)
Inductive Call :=
| CToast (t : Toast)
| CConsoleError (e : AxiosError)
| CAxiosPost (path : jsstring) (body_url : jsstring)
| CSaveAs (content mime filename : jsstring)
| CWriteFile (wb : XLSX.WorkBook) (filename : jsstring).

(** ** The component state and its handlers *)

Declare Scope handler_scope.
Delimit Scope handler_scope with handler.

Section Session.

(** What the scrape endpoint sends back.  [response.data] is stored as it
    comes (the TypeScript annotation is erased and no handler inspects the
    payload), so the session is written once for every payload type. *)
Variable D : Type.

(** The three [useState] cells. *)
Record State := mkState {
  url : jsstring;
  loading : bool;
  productData : option D
}.

Inductive Outcome (A : Type) :=
| Ok (a : A)
| Threw (e : AxiosError).
Arguments Threw {A} e.

(** A handler body: reads and sets the cells, logs its calls, may throw. *)
Definition M (A : Type) := State -> Outcome A * State * list Call.

Definition ret {A} (a : A) : M A := fun s => (Ok a, s, []).

Definition bind {A B} (m : M A) (k : A -> M B) : M B :=
  fun s =>
    match m s with
    | (Ok a, s1, c1) => let '(r, s2, c2) := k a s1 in (r, s2, c1 ++ c2)
    | (Threw e, s1, c1) => (Threw e, s1, c1)
    end.

(** The cells as the handler's closure sees them. *)
Definition get : M State := fun s => (Ok s, s, []).

Definition setLoading (b : bool) : M unit :=
  fun s => (Ok tt, mkState (url s) b (productData s), []).

Definition setProductData (d : option D) : M unit :=
  fun s => (Ok tt, mkState (url s) (loading s) d, []).

Definition setUrl (u : jsstring) : M unit :=
  fun s => (Ok tt, mkState u (loading s) (productData s), []).

Definition call (c : Call) : M unit := fun s => (Ok tt, s, [c]).

Definition throw {A} (e : AxiosError) : M A := fun s => (Threw e, s, []).

Definition try_catch {A} (body : M A) (handler : AxiosError -> M A) : M A :=
  fun s =>
    match body s with
    | (Ok a, s1, c1) => (Ok a, s1, c1)
    | (Threw e, s1, c1) =>
        let '(r, s2, c2) := handler e s1 in (r, s2, c1 ++ c2)
    end.

Definition finally {A} (body : M A) (cleanup : M unit) : M A :=
  fun s =>
    let '(r, s1, c1) := body s in
    let '(r', s2, c2) := cleanup s1 in
    (match r' with Ok _ => r | Threw e => Threw e end, s2, c1 ++ c2).

Local Open Scope handler_scope.

Notation "x <- m ;; k" := (bind m (fun x => k))
  (at level 61, m at next level, right associativity) : handler_scope.
Notation "m ;; k" := (bind m (fun _ => k))
  (at level 61, right associativity) : handler_scope.

(** How the request ended on the wire. *)
Inductive HttpOutcome :=
| NoResponse
| Responded (status : Z) (data : D).

(** The default [validateStatus] of axios: a status in 200..299. *)
Definition validateStatus (status : Z) : bool :=
  (200 <=? status)%Z && (status <? 300)%Z.

(** [(await axios.post(...)).data]: axios resolves with the response when
    [validateStatus] accepts its status and rejects otherwise. *)
Definition await_post (o : HttpOutcome) : M D :=
  match o with
  | NoResponse => throw NetworkError
  | Responded status data =>
      if validateStatus status then ret data else throw (BadStatus status)
  end.

(** The outcomes on which the promise rejects. *)
Definition rejected (o : HttpOutcome) : bool :=
  match o with
  | NoResponse => true
  | Responded status _ => negb (validateStatus status)
  end.

(** Where an [async] handler stands when control returns to the event
    loop: it has returned, or it is suspended at its [await]. *)
Inductive Segment := Returned | Awaiting.

(** [handleScrape], lines 33-54: from the call up to the [await]. *)
Definition handleScrape : M Segment :=
  s <- get ;;
  if negb (truthy (trim (url s))) then
    call (CToast UrlRequired) ;;
    ret Returned
  else if negb (validateAmazonUrl (url s)) then
    call (CToast InvalidUrl) ;;
    ret Returned
  else
    setLoading true ;;
    call (CAxiosPost (lit "/scrape") (url s)) ;;
    ret Awaiting.

(** [handleScrape], lines 54-69: from the settled [await] to the end of
    the [try]/[catch]/[finally]. *)
Definition handleScrape_settled (o : HttpOutcome) : M unit :=
  finally
    (try_catch
       (data <- await_post o ;;
        setProductData (Some data) ;;
        call (CToast ScrapeSuccess))
       (fun error =>
          call (CConsoleError error) ;;
          call (CToast ScrapeFailed)))
    (setLoading false).

(** Projections of a run. *)
Definition state_after {A} (r : Outcome A * State * list Call) : State :=
  snd (fst r).
Definition calls_of {A} (r : Outcome A * State * list Call) : list Call :=
  snd r.
Definition result_of {A} (r : Outcome A * State * list Call) : Outcome A :=
  fst (fst r).

(** The request bodies among some calls. *)
Definition posts (cs : list Call) : list jsstring :=
  flat_map (fun c => match c with CAxiosPost _ u => [u] | _ => [] end) cs.

Definition toasts (cs : list Call) : list Toast :=
  flat_map (fun c => match c with CToast t => [t] | _ => [] end) cs.

(** *** The session as the page runs it *)

(** The cells, the requests that have been sent and have not settled yet,
    and every call made so far. *)
Record World := mkWorld {
  st : State;
  inflight : list jsstring;
  log : list Call
}.

Definition initial : World :=
  mkWorld (mkState [] false None) [] [].

(** What can happen to the page: the user edits the input, the user
    clicks the button, the oldest outstanding request settles. *)
Inductive Event :=
| Edit_ (text : jsstring)
| Click
| Settle (o : HttpOutcome).

(** [disabled={loading}] on the input, line 144. *)
Definition input_disabled (s : State) : bool := loading s.

(** [disabled={loading || !url.trim()}] on the button, line 149. *)
Definition button_disabled (s : State) : bool :=
  loading s || negb (truthy (trim (url s))).

Definition run_handler {A} (m : M A) (w : World) : World :=
  let r := m (st w) in
  mkWorld (state_after r) (inflight w ++ posts (calls_of r))
          (log w ++ calls_of r).

Definition on_settle (o : HttpOutcome) (w : World) : World :=
  let r := handleScrape_settled o (st w) in
  mkWorld (state_after r) (tl (inflight w)) (log w ++ calls_of r).

(** One event; [None] when the page does not deliver it (a disabled
    control, or no request to settle).  The whole segment of a handler up
    to its [await] runs inside the event, and the page is rendered again
    before the next event. *)
Definition dispatch (e : Event) (w : World) : option World :=
  match e with
  | Edit_ text =>
      if input_disabled (st w) then None
      else Some (run_handler (setUrl text) w)
  | Click =>
      if button_disabled (st w) then None
      else Some (run_handler handleScrape w)
  | Settle o =>
      match inflight w with
      | [] => None
      | _ :: _ => Some (on_settle o w)
      end
  end.

Inductive reachable : World -> Prop :=
| reach_initial : reachable initial
| reach_step e w w' :
    reachable w -> dispatch e w = Some w' -> reachable w'.

(** The invariant of the page: the requests outstanding are determined by
    [loading]: none when it is clear, and when it is set the single request
    sent for the input that is still in the [url] cell. *)
Definition flight_matches_loading (w : World) : Prop :=
  inflight w = if loading (st w) then [url (st w)] else [].

(** The session status of the specification, read off the page: [Pending]
    while [loading] is set, otherwise what the last scrape notification
    said, [Idle] when there has been none. *)
Inductive Status := Idle | Pending | Succeeded | Failed.

Definition last_scrape_result (cs : list Call) : Status :=
  fold_left
    (fun acc c =>
       match c with
       | CToast ScrapeSuccess => Succeeded
       | CToast ScrapeFailed => Failed
       | _ => acc
       end)
    cs Idle.

Definition status (w : World) : Status :=
  if loading (st w) then Pending else last_scrape_result (log w).

End Session.

Arguments Threw {A} e.
Arguments NoResponse {D}.
Arguments initial {D}.
Arguments Click {D}.
Arguments get {D}.

Notation "x <- m ;; k" := (bind m (fun x => k))
  (at level 61, m at next level, right associativity) : handler_scope.
Notation "m ;; k" := (bind m (fun _ => k))
  (at level 61, right associativity) : handler_scope.

(** ** The product record and the two exports *)

(** [interface ProductData], lines 12-21.  The optional [discounted] is
    [None] when the property is [undefined]. *)
Record Price := mkPrice {
  original : jsstring;
  discounted : option jsstring
}.

Record ProductData := mkProductData {
  product_name : jsstring;
  price : Price;
  description : jsstring;
  variants : list jsstring;
  image_urls : list jsstring
}.

(** [x || ''] on an optional string: [x] when it is truthy, the empty
    string when it is [undefined] or empty. *)
Definition or_empty (x : option jsstring) : jsstring :=
  match x with
  | Some s => if truthy s then s else []
  | None => []
  end.

(** The template literal that wraps a value in double quotes, lines 88-89. *)
Definition in_quotes (d : jsstring) : jsstring :=
  [dquote] ++ d ++ [dquote].

(** [headers], line 76. *)
Definition headers : list jsstring :=
  [lit "Product Name"; lit "Original Price"; lit "Discounted Price";
   lit "Description"; lit "Variants"; lit "Image URLs"].

(** [data], lines 77-84. *)
Definition data (productData : ProductData) : list jsstring :=
  [product_name productData;
   original (price productData);
   or_empty (discounted (price productData));
   replaceAll dquote [dquote; dquote] (description productData);
   join (lit "; ") (variants productData);
   join (lit "; ") (image_urls productData)].

(** [csvContent], lines 87-90. *)
Definition csvContent (productData : ProductData) : jsstring :=
  join [newline]
    [join (lit ",") (map in_quotes headers);
     join (lit ",") (map in_quotes (data productData))].

(** [exportToCSV], lines 72-94.  The blob holds [csvContent]. *)
Definition exportToCSV : M ProductData unit :=
  (s <- get ;;
   match productData s with
   | None => ret tt
   | Some pd =>
       call (CSaveAs (csvContent pd) (lit "text/csv;charset=utf-8;")
                     (lit "amazon-product.csv"))
   end)%handler.

(** The object literal handed to [json_to_sheet], lines 99-106. *)
Definition sheet_rows (productData : ProductData) : list XLSX.JsObject :=
  [[(lit "Product Name", product_name productData);
    (lit "Original Price", original (price productData));
    (lit "Discounted Price", or_empty (discounted (price productData)));
    (lit "Description", description productData);
    (lit "Variants", join (lit "; ") (variants productData));
    (lit "Image URLs", join (lit "; ") (image_urls productData))]].

(** The workbook of lines 99-109. *)
Definition workbook (productData : ProductData) : XLSX.WorkBook :=
  let worksheet := XLSX.json_to_sheet (sheet_rows productData) in
  let workbook := XLSX.book_new in
  XLSX.book_append_sheet workbook worksheet (lit "Product Data").

(** [exportToExcel], lines 96-111. *)
Definition exportToExcel : M ProductData unit :=
  (s <- get ;;
   match productData s with
   | None => ret tt
   | Some pd => call (CWriteFile (workbook pd) (lit "amazon-product.xlsx"))
   end)%handler.

(** The reading of the export under which every field has its double
    quotes doubled, to compare [csvContent] with. *)
Definition escape_quotes (d : jsstring) : jsstring :=
  replaceAll dquote [dquote; dquote] d.

Definition record_fields (productData : ProductData) : list jsstring :=
  [product_name productData;
   original (price productData);
   match discounted (price productData) with Some d => d | None => [] end;
   description productData;
   join (lit "; ") (variants productData);
   join (lit "; ") (image_urls productData)].

Definition all_fields_escaped (productData : ProductData) : jsstring :=
  join [newline]
    [join (lit ",") (map in_quotes headers);
     join (lit ",")
       (map (fun d => in_quotes (escape_quotes d))
            (record_fields productData))].

(** The same record with no discounted price. *)
Definition without_discount (productData : ProductData) : ProductData :=
  mkProductData (product_name productData)
                (mkPrice (original (price productData)) None)
                (description productData)
                (variants productData)
                (image_urls productData).

(** What can come back with a 2xx status: a body of the shape of
    [ProductData], or some other body (an error page, say). *)
Inductive Body :=
| Shaped (pd : ProductData)
| Unshaped (text : jsstring).

(** The failures of a scrape as the specification lists them: a transport
    error, a status outside 2xx, or a payload that is not a product
    record. *)
Definition scrape_failure (o : HttpOutcome Body) : bool :=
  match o with
  | NoResponse => true
  | Responded status (Unshaped _) => true
  | Responded status (Shaped _) => negb (validateStatus status)
  end.

(** ** The page *)

(** A step of the session as a relation: the five ways in which
    [dispatch] delivers an event. *)
Section Steps.

Variable D : Type.

Inductive delivers : Event D -> World D -> World D -> Prop :=
| delivers_edit text w :
    loading (st w) = false ->
    delivers (Edit_ D text) w
      (mkWorld (mkState text false (productData (st w)))
               (inflight w) (log w))
| delivers_click_invalid w :
    loading (st w) = false ->
    truthy (trim (url (st w))) = true ->
    validateAmazonUrl (url (st w)) = false ->
    delivers Click w
      (mkWorld (st w) (inflight w) (log w ++ [CToast InvalidUrl]))
| delivers_click_accepted w :
    loading (st w) = false ->
    truthy (trim (url (st w))) = true ->
    validateAmazonUrl (url (st w)) = true ->
    delivers Click w
      (mkWorld (mkState (url (st w)) true (productData (st w)))
               (inflight w ++ [url (st w)])
               (log w ++ [CAxiosPost (lit "/scrape") (url (st w))]))
| delivers_fulfilled status d u rest w :
    inflight w = u :: rest ->
    validateStatus status = true ->
    delivers (Settle (Responded status d)) w
      (mkWorld (mkState (url (st w)) false (Some d))
               rest (log w ++ [CToast ScrapeSuccess]))
| delivers_rejected o u rest w :
    inflight w = u :: rest ->
    rejected o = true ->
    delivers (Settle o) w
      (mkWorld (mkState (url (st w)) false (productData (st w)))
               rest
               (log w ++ [CConsoleError
                            match o with
                            | NoResponse => NetworkError
                            | Responded status _ => BadStatus status
                            end;
                          CToast ScrapeFailed])).

(** The notifications that report how a request ended. *)
Definition is_outcome (t : Toast) : bool :=
  match t with
  | ScrapeSuccess | ScrapeFailed => true
  | UrlRequired | InvalidUrl => false
  end.

End Steps.

(** [Array.prototype.map] with the index passed to the callback. *)
Fixpoint map_index {A B} (f : A -> nat -> B) (i : nat) (xs : list A)
  : list B :=
  match xs with
  | [] => []
  | x :: rest => f x i :: map_index f (S i) rest
  end.

(** A number in a template literal. *)
Definition decimal (n : nat) : jsstring :=
  lit (DecimalString.NilEmpty.string_of_uint (Nat.to_uint n)).

(** An [img] of the gallery, lines 268-276. *)
Record Thumbnail := mkThumbnail {
  thumb_key : nat;
  thumb_src : jsstring;
  thumb_alt : jsstring
}.

(** What the results section shows of a record, lines 190-282: the texts,
    and for each conditional block whether it is there. *)
Record Results := mkResults {
  shown_name : jsstring;
  shown_original : jsstring;
  shown_discounted : option jsstring;
  shown_variants : option (list (nat * jsstring));
  shown_description : jsstring;
  shown_images : option (list Thumbnail)
}.

Definition render_results (productData : ProductData) : Results :=
  mkResults
    (product_name productData)
    (original (price productData))
    (match discounted (price productData) with
     | Some d => if truthy d then Some d else None
     | None => None
     end)
    (if 0 <? List.length (variants productData)
     then Some (map_index (fun variant index => (index, variant)) 0
                          (variants productData))
     else None)
    (description productData)
    (if 0 <? List.length (image_urls productData)
     then Some (map_index
                  (fun url index =>
                     mkThumbnail index url
                       (lit "Product image " ++ decimal (index + 1)))
                  0 (firstn 8 (image_urls productData)))
     else None).

(** The parts of the markup that depend on the cells, lines 139-163 and
    168: the input, the button, and the results section with the export
    buttons, rendered only when a record is stored. *)
Record Page := mkPage {
  input_value : jsstring;
  input_is_disabled : bool;
  button_is_disabled : bool;
  button_text : jsstring;
  results : option Results
}.

Definition render (s : State ProductData) : Page :=
  mkPage (url s)
         (input_disabled s)
         (button_disabled s)
         (if loading s then lit "Scraping Product..."
          else lit "Scrape Product")
         (match productData s with
          | Some pd => Some (render_results pd)
          | None => None
          end).

(** The two export buttons, lines 172-187; they are part of the results
    section. *)
Inductive ExportButton := ExportCSV | ExportExcel.

Definition export_handler (b : ExportButton) : M ProductData unit :=
  match b with
  | ExportCSV => exportToCSV
  | ExportExcel => exportToExcel
  end.

(** A click on an export button: delivered when the button is on the
    page. *)
Definition click_export (b : ExportButton) (w : World ProductData)
  : option (World ProductData) :=
  match results (render (st w)) with
  | Some _ => Some (run_handler (export_handler b) w)
  | None => None
  end.

(** * Properties *)

(** ** String primitives *)

Lemma startsWith_app (p rest : jsstring) : startsWith (p ++ rest) p = true.
Proof.
  induction p as [|c p IH]; [destruct rest; reflexivity|].
  cbn. now rewrite N.eqb_refl, IH.
Qed.

Lemma startsWith_split (s p : jsstring) :
  startsWith s p = true -> exists rest, s = p ++ rest.
Proof.
  revert s. induction p as [|c p IH]; intros s H.
  - now exists s.
  - destruct s as [|d s]; [discriminate|]. cbn in H.
    apply andb_true_iff in H as [Hc Hp]. apply N.eqb_eq in Hc. subst d.
    destruct (IH _ Hp) as [rest ->]. now exists rest.
Qed.

Lemma includes_occurs (s p : jsstring) :
  includes s p = true <-> occurs_in p s.
Proof.
  split.
  - induction s as [|d s IH]; cbn [includes]; intros H.
    + rewrite orb_false_r in H. destruct (startsWith_split _ _ H) as [r Hr].
      now exists [], r.
    + apply orb_true_iff in H as [H|H].
      * destruct (startsWith_split _ _ H) as [r Hr]. now exists [], r.
      * destruct (IH H) as (a & b & ->). now exists (d :: a), b.
  - intros (a & b & ->). induction a as [|d a IH].
    + cbn [app]. destruct (p ++ b) eqn:E; cbn [includes];
        rewrite <- E, startsWith_app; reflexivity.
    + cbn [app includes]. rewrite IH. apply orb_true_r.
Qed.

Lemma trimStart_nil_iff (s : jsstring) :
  trimStart s = [] <-> forallb isWhiteSpace s = true.
Proof.
  induction s as [|c s IH]; cbn; [tauto|].
  destruct (isWhiteSpace c); cbn; [exact IH|].
  split; discriminate.
Qed.

(** [!s.trim()] holds exactly for the strings made of white space only. *)
Lemma trim_blank_iff (s : jsstring) :
  truthy (trim s) = false <-> forallb isWhiteSpace s = true.
Proof.
  unfold trim, trimEnd.
  assert (T : forall t : jsstring, truthy t = false <-> t = []).
  { intros [|? ?]; cbn; split; congruence. }
  rewrite T. split.
  - intros H. apply (f_equal (@rev N)) in H. rewrite rev_involutive in H.
    cbn in H. apply trimStart_nil_iff in H.
    rewrite forallb_forall in H.
    apply forallb_forall. intros c Hc.
    destruct (isWhiteSpace c) eqn:E; [reflexivity|].
    assert (K : forall t, In c t -> isWhiteSpace c = false ->
                          In c (trimStart t)).
    { induction t as [|d t IHt]; cbn; [tauto|].
      intros [->|Hin] Hw; [rewrite Hw; now left|].
      destruct (isWhiteSpace d); [auto|now right]. }
    rewrite <- E. apply H. rewrite <- in_rev. now apply K.
  - intros H. apply trimStart_nil_iff in H. rewrite H. reflexivity.
Qed.

(** ** The URL gate *)

(** C4. [validateAmazonUrl] accepts a string exactly when the domain
    fragment [amazon.] occurs in it and at least one of the path markers
    [/dp/] and [/gp/] occurs in it.  A domain-only URL is rejected, URLs
    with either marker are accepted, and the marker may come before or
    after the domain fragment. *)
Theorem validateAmazonUrl_spec :
  (forall url,
      validateAmazonUrl url = true <->
      occurs_in (lit "amazon.") url /\
      (occurs_in (lit "/dp/") url \/ occurs_in (lit "/gp/") url)) /\
  validateAmazonUrl (lit "https://www.amazon.in/") = false /\
  validateAmazonUrl (lit "https://www.amazon.in/widget/dp/B000123456") = true /\
  validateAmazonUrl (lit "https://www.amazon.com/gp/product/B000123456") = true /\
  (forall a b c,
      validateAmazonUrl (a ++ lit "amazon." ++ b ++ lit "/dp/" ++ c) = true /\
      validateAmazonUrl (a ++ lit "/dp/" ++ b ++ lit "amazon." ++ c) = true /\
      validateAmazonUrl (a ++ lit "amazon." ++ b ++ lit "/gp/" ++ c) = true /\
      validateAmazonUrl (a ++ lit "/gp/" ++ b ++ lit "amazon." ++ c) = true).
Proof.
  assert (Hiff : forall url,
      validateAmazonUrl url = true <->
      occurs_in (lit "amazon.") url /\
      (occurs_in (lit "/dp/") url \/ occurs_in (lit "/gp/") url)).
  { intros url. unfold validateAmazonUrl.
    rewrite andb_true_iff, orb_true_iff, !includes_occurs. tauto. }
  split; [exact Hiff|].
  do 3 (split; [reflexivity|]).
  intros a b c.
  assert (Hafter : forall m, occurs_in (lit "amazon.") (a ++ lit "amazon." ++ b ++ m ++ c)
                          /\ occurs_in m (a ++ lit "amazon." ++ b ++ m ++ c)).
  { intros m. split.
    - now exists a, (b ++ m ++ c).
    - exists (a ++ lit "amazon." ++ b), c. now rewrite <- !app_assoc. }
  assert (Hbefore : forall m, occurs_in (lit "amazon.") (a ++ m ++ b ++ lit "amazon." ++ c)
                           /\ occurs_in m (a ++ m ++ b ++ lit "amazon." ++ c)).
  { intros m. split.
    - exists (a ++ m ++ b), c. now rewrite <- !app_assoc.
    - now exists a, (b ++ lit "amazon." ++ c). }
  repeat split; apply Hiff.
  - destruct (Hafter (lit "/dp/")); auto.
  - destruct (Hbefore (lit "/dp/")); auto.
  - destruct (Hafter (lit "/gp/")); auto.
  - destruct (Hbefore (lit "/gp/")); auto.
Qed.

(** ** The handlers, case by case *)

Section HandlerFacts.

Variable D : Type.
Implicit Types (s : State D) (w : World D) (o : HttpOutcome D).

Lemma handleScrape_blank s :
  truthy (trim (url s)) = false ->
  handleScrape s = (Ok Returned, s, [CToast UrlRequired]).
Proof.
  intros H. unfold handleScrape, bind, get. now rewrite H.
Qed.

Lemma handleScrape_invalid s :
  truthy (trim (url s)) = true ->
  validateAmazonUrl (url s) = false ->
  handleScrape s = (Ok Returned, s, [CToast InvalidUrl]).
Proof.
  intros H1 H2. unfold handleScrape, bind, get. now rewrite H1, H2.
Qed.

Lemma handleScrape_accepted s :
  truthy (trim (url s)) = true ->
  validateAmazonUrl (url s) = true ->
  handleScrape s =
  (Ok Awaiting, mkState (url s) true (productData s),
   [CAxiosPost (lit "/scrape") (url s)]).
Proof.
  intros H1 H2. unfold handleScrape, bind, get. now rewrite H1, H2.
Qed.

Lemma settled_fulfilled s status d :
  validateStatus status = true ->
  handleScrape_settled (Responded status d) s =
  (Ok tt, mkState (url s) false (Some d), [CToast ScrapeSuccess]).
Proof.
  intros H. unfold handleScrape_settled, finally, try_catch, bind, await_post.
  now rewrite H.
Qed.

Lemma settled_rejected s o :
  rejected o = true ->
  exists e,
    handleScrape_settled o s =
    (Ok tt, mkState (url s) false (productData s),
     [CConsoleError e; CToast ScrapeFailed]).
Proof.
  intros H. unfold handleScrape_settled, finally, try_catch, bind, await_post.
  destruct o as [|status d]; cbn in H.
  - now exists NetworkError.
  - apply negb_true_iff in H. rewrite H. now exists (BadStatus status).
Qed.

Lemma last_scrape_result_snoc (cs : list Call) (c : Call) :
  last_scrape_result (cs ++ [c]) =
  match c with
  | CToast ScrapeSuccess => Succeeded
  | CToast ScrapeFailed => Failed
  | _ => last_scrape_result cs
  end.
Proof.
  unfold last_scrape_result. now rewrite fold_left_app.
Qed.

(** [Pending] is never read off the notifications. *)
Lemma last_scrape_result_not_pending (cs : list Call) :
  last_scrape_result cs <> Pending.
Proof.
  unfold last_scrape_result.
  assert (K : forall acc, acc <> Pending ->
            fold_left (fun acc c =>
               match c with
               | CToast ScrapeSuccess => Succeeded
               | CToast ScrapeFailed => Failed
               | _ => acc
               end) cs acc <> Pending).
  { induction cs as [|c cs IH]; intros acc Hacc; cbn; [assumption|].
    apply IH. destruct c as [[]| | | |]; congruence. }
  apply K. discriminate.
Qed.

End HandlerFacts.

(** ** The scrape session *)

(** C5. A submit whose input is blank or fails [validateAmazonUrl] changes
    nothing but the notifications: the cells are as before, no request is
    sent, the status is what it was, and exactly one rejection toast is
    raised.  A submit whose input passes both checks sets the status to
    [Pending], keeps the input and the stored record, and sends exactly one
    request. *)
Theorem handleScrape_guard (D : Type) (w : World D) :
  (truthy (trim (url (st w))) = false \/
   validateAmazonUrl (url (st w)) = false ->
   st (run_handler (@handleScrape D) w) = st w /\
   inflight (run_handler (@handleScrape D) w) = inflight w /\
   posts (calls_of (handleScrape (st w))) = [] /\
   status (run_handler (@handleScrape D) w) = status w /\
   exists t,
     (t = UrlRequired \/ t = InvalidUrl) /\
     log (run_handler (@handleScrape D) w) = log w ++ [CToast t]) /\
  (truthy (trim (url (st w))) = true ->
   validateAmazonUrl (url (st w)) = true ->
   status (run_handler (@handleScrape D) w) = Pending /\
   url (st (run_handler (@handleScrape D) w)) = url (st w) /\
   productData (st (run_handler (@handleScrape D) w)) = productData (st w) /\
   inflight (run_handler (@handleScrape D) w) = inflight w ++ [url (st w)] /\
   List.length (posts (calls_of (handleScrape (st w)))) = 1 /\
   result_of (handleScrape (st w)) = Ok Awaiting).
Proof.
  split.
  - intros Hrej.
    assert (E : exists t, (t = UrlRequired \/ t = InvalidUrl) /\
                handleScrape (st w) = (Ok Returned, st w, [CToast t])).
    { destruct (truthy (trim (url (st w)))) eqn:Hb.
      - destruct Hrej as [Hrej|Hrej]; [discriminate|].
        exists InvalidUrl. split; [now right|].
        now apply handleScrape_invalid.
      - exists UrlRequired. split; [now left|].
        now apply handleScrape_blank. }
    destruct E as (t & Ht & E).
    unfold run_handler, status, state_after, calls_of. rewrite E.
    cbn [fst snd st inflight log posts flat_map app].
    rewrite app_nil_r, last_scrape_result_snoc.
    repeat split; try reflexivity.
    + destruct Ht as [-> | ->]; reflexivity.
    + exists t. now split.
  - intros H1 H2.
    unfold run_handler, status, state_after, calls_of, result_of.
    rewrite (handleScrape_accepted _ H1 H2). cbn. repeat split.
Qed.

Lemma handleScrape_guard_witness :
  (let w : World unit := mkWorld (mkState (lit "   ") false (Some tt)) [] [] in
   st (run_handler (@handleScrape unit) w) = st w /\
   log (run_handler (@handleScrape unit) w) = [CToast UrlRequired]) /\
  (let w : World unit :=
     mkWorld (mkState (lit "https://www.amazon.in/widget/dp/B000123456")
                      false None) [] [] in
   status (run_handler (@handleScrape unit) w) = Pending /\
   inflight (run_handler (@handleScrape unit) w) =
   [lit "https://www.amazon.in/widget/dp/B000123456"]).
Proof.
  split.
  - set (w := mkWorld (mkState (lit "   ") false (Some tt)) [] []).
    destruct (handleScrape_guard w) as [Hrej _].
    destruct Hrej as (Hst & _ & _ & _ & _); [left; reflexivity|].
    split; [exact Hst | reflexivity].
  - set (w := mkWorld (mkState
               (lit "https://www.amazon.in/widget/dp/B000123456")
               false (@None unit)) [] []).
    destruct (handleScrape_guard w) as [_ Hacc].
    destruct Hacc as (Hs & _ & _ & Hin & _); [reflexivity|reflexivity|].
    split; [exact Hs | exact Hin].
Defined.

(** C10. For an input that passes both checks, the one request that is
    sent goes to [/scrape] and carries the input exactly as it stands in
    the [url] cell; [trim] is applied in the blank check only. *)
Theorem handleScrape_posts_verbatim (D : Type) (s : State D) :
  truthy (trim (url s)) = true ->
  validateAmazonUrl (url s) = true ->
  calls_of (handleScrape s) = [CAxiosPost (lit "/scrape") (url s)].
Proof.
  intros H1 H2. now rewrite (handleScrape_accepted _ H1 H2).
Qed.

Lemma handleScrape_posts_verbatim_witness :
  let u := lit "  https://www.amazon.in/widget/dp/B000123456 " in
  trim u <> u /\
  calls_of (handleScrape (mkState u false (@None unit))) =
  [CAxiosPost (lit "/scrape") u].
Proof.
  intros u. split.
  - discriminate.
  - apply (handleScrape_posts_verbatim (mkState u false (@None unit)));
      reflexivity.
Defined.

(** C2, as the code has it. When the session holds a record and the
    request is rejected by axios (no response, or a status outside
    200..299), the continuation of [handleScrape] leaves the record and
    the input as they were, clears [loading], logs the error and raises
    the failure toast, so that the status is [Failed]. *)
Theorem rejected_scrape_keeps_record
    (D : Type) (w : World D) (o : HttpOutcome D) (r : D) :
  productData (st w) = Some r ->
  rejected o = true ->
  productData (st (on_settle o w)) = Some r /\
  status (on_settle o w) = Failed /\
  loading (st (on_settle o w)) = false /\
  url (st (on_settle o w)) = url (st w) /\
  exists e, log (on_settle o w) = log w ++ [CConsoleError e; CToast ScrapeFailed].
Proof.
  intros Hr Ho. destruct (settled_rejected (st w) o Ho) as [e E].
  unfold on_settle, status, state_after, calls_of. rewrite E.
  cbn [fst snd st inflight log loading url productData].
  repeat split; [assumption| |now exists e].
  change [CConsoleError e; CToast ScrapeFailed]
    with ([CConsoleError e] ++ [CToast ScrapeFailed]).
  now rewrite app_assoc, last_scrape_result_snoc.
Qed.

Lemma rejected_scrape_keeps_record_witness :
  let w : World nat :=
    mkWorld (mkState (lit "https://www.amazon.in/widget/dp/B000123456")
                     true (Some 7))
            [lit "https://www.amazon.in/widget/dp/B000123456"]
            [CToast ScrapeSuccess] in
  productData (st (on_settle (Responded 503 8) w)) = Some 7 /\
  status (on_settle (Responded 503 8) w) = Failed.
Proof.
  intros w.
  destruct (@rejected_scrape_keeps_record nat w (Responded 503 8) 7)
    as (H1 & H2 & _); [reflexivity|reflexivity|].
  split; [exact H1 | exact H2].
Defined.

(** C2, as stated, fails. A response with status 200 whose body is not a
    product record is not a failure for the code: the body replaces the
    stored record and the success toast is raised. *)
Lemma malformed_payload_overwrites_record :
  ~ (forall (w : World Body) (o : HttpOutcome Body) (r : Body),
        productData (st w) = Some r ->
        scrape_failure o = true ->
        productData (st (on_settle o w)) = Some r /\
        status (on_settle o w) = Failed).
Proof.
  intros claim.
  pose (r := Shaped (mkProductData (lit "Widget") (mkPrice (lit "$10.00") None)
                                   [] [] [])).
  pose (w := mkWorld (mkState (lit "https://www.amazon.in/widget/dp/B000123456")
                              true (Some r))
                     [lit "https://www.amazon.in/widget/dp/B000123456"]
                     [CToast ScrapeSuccess]).
  destruct (claim w (Responded 200 (Unshaped (lit "<html>Robot check</html>"))) r)
    as [Hrec _]; [reflexivity|reflexivity|].
  discriminate Hrec.
Qed.

(** *** At most one request in flight *)

Section SingleFlight.

Variable D : Type.
Implicit Types (w : World D).

Lemma flight_matches_loading_initial : flight_matches_loading (@initial D).
Proof. reflexivity. Qed.

Lemma flight_matches_loading_step e w w' :
  flight_matches_loading w ->
  dispatch e w = Some w' ->
  flight_matches_loading w'.
Proof.
  unfold flight_matches_loading. intros Inv Hstep.
  destruct e as [text| |o]; cbn [dispatch] in Hstep.
  - (* the input is edited *)
    unfold input_disabled in Hstep.
    destruct (loading (st w)) eqn:L; [discriminate|].
    injection Hstep as <-. cbn. now rewrite L, Inv.
  - (* the button is clicked *)
    unfold button_disabled in Hstep.
    destruct (loading (st w)) eqn:L; [discriminate|].
    destruct (truthy (trim (url (st w)))) eqn:B; [|discriminate].
    injection Hstep as <-. unfold run_handler, state_after, calls_of.
    destruct (validateAmazonUrl (url (st w))) eqn:V.
    + rewrite (handleScrape_accepted _ B V). cbn. now rewrite Inv.
    + rewrite (handleScrape_invalid _ B V). cbn. now rewrite L, Inv.
  - (* the request settles *)
    destruct (inflight w) as [|u rest] eqn:F; [discriminate|].
    injection Hstep as <-.
    destruct (loading (st w)); [|discriminate].
    injection Inv as _ ->.
    unfold on_settle, state_after. rewrite F.
    destruct (rejected o) eqn:R.
    + destruct (settled_rejected (st w) o R) as [err ->]. reflexivity.
    + destruct o as [|status d]; [discriminate|]. cbn in R.
      apply negb_false_iff in R. now rewrite (settled_fulfilled (st w) _ d R).
Qed.

Lemma reachable_flight_matches_loading w :
  reachable w -> flight_matches_loading w.
Proof.
  induction 1 as [|e w w' _ IH Hstep].
  - apply flight_matches_loading_initial.
  - exact (flight_matches_loading_step e IH Hstep).
Qed.

(** C6. In every state the page can reach there is at most one request
    outstanding, and there is one exactly while the status is [Pending].
    While [Pending], the click that would submit again is not delivered,
    and no event at all leads to a state with two outstanding requests. *)
Theorem at_most_one_in_flight w :
  reachable w ->
  List.length (inflight w) <= 1 /\
  (status w = Pending <-> List.length (inflight w) = 1) /\
  (status w = Pending -> dispatch Click w = None) /\
  (forall e w', dispatch e w = Some w' -> List.length (inflight w') <= 1).
Proof.
  intros Hreach.
  assert (bound : forall v : World D, flight_matches_loading v ->
                            List.length (inflight v) <= 1).
  { intros v Hv. rewrite Hv. destruct (loading (st v)); cbn; lia. }
  pose proof (reachable_flight_matches_loading Hreach) as Inv.
  split; [now apply bound|]. split; [|split].
  - unfold status. rewrite Inv. destruct (loading (st w)); cbn.
    + tauto.
    + split; [|discriminate].
      intros H. now apply last_scrape_result_not_pending in H.
  - unfold status. intros H. cbn [dispatch]. unfold button_disabled.
    destruct (loading (st w)); [reflexivity|].
    now apply last_scrape_result_not_pending in H.
  - intros e w' Hstep. apply bound.
    exact (flight_matches_loading_step e Inv Hstep).
Qed.

(** The guard is the button's, not the handler's: called on a page that
    is still loading, [handleScrape] would send a request again. *)
Lemma handleScrape_does_not_test_loading (s : State D) :
  loading s = true ->
  truthy (trim (url s)) = true ->
  validateAmazonUrl (url s) = true ->
  posts (calls_of (handleScrape s)) = [url s].
Proof.
  intros _ H1 H2. now rewrite (handleScrape_accepted _ H1 H2).
Qed.

End SingleFlight.

Lemma at_most_one_in_flight_witness :
  exists w : World unit,
    dispatch Click
      (mkWorld (mkState (lit "https://www.amazon.in/widget/dp/B000123456")
                        false None) [] []) = Some w /\
    status w = Pending /\
    List.length (inflight w) = 1 /\
    dispatch Click w = None.
Proof.
  set (u := lit "https://www.amazon.in/widget/dp/B000123456").
  set (w0 := mkWorld (mkState u false (@None unit)) [] []).
  set (w1 := mkWorld (mkState u true (@None unit)) [u]
                     [CAxiosPost (lit "/scrape") u]).
  assert (R0 : reachable w0).
  { apply (@reach_step unit (Edit_ unit u) initial); [constructor|reflexivity]. }
  assert (R1 : reachable w1).
  { apply (@reach_step unit Click w0); [exact R0|reflexivity]. }
  destruct (at_most_one_in_flight R1) as (_ & [Hp _] & Hclick & _).
  exists w1. split; [reflexivity|]. split; [reflexivity|].
  split; [apply Hp; reflexivity | apply Hclick; reflexivity].
Defined.

(** ** The exports *)

Lemma replaceAll_absent (c : N) (by_ s : jsstring) :
  ~ In c s -> replaceAll c by_ s = s.
Proof.
  induction s as [|d s IH]; cbn; [reflexivity|].
  intros H. destruct (N.eqb_spec d c) as [->|_].
  - exfalso. apply H. now left.
  - cbn. f_equal. apply IH. intros Hin. apply H. now right.
Qed.

Lemma or_empty_spec (x : option jsstring) :
  or_empty x = match x with Some d => d | None => [] end.
Proof. destruct x as [[|c d]|]; reflexivity. Qed.

Lemma replaceAll_flat_map (c : N) (by_ s : jsstring) :
  replaceAll c by_ s = flat_map (fun d => if N.eqb d c then by_ else [d]) s.
Proof.
  induction s as [|d s IH]; cbn; [reflexivity|]. now rewrite IH.
Qed.

Lemma join_flat_map (sep : jsstring) (xs : list jsstring) :
  join sep xs =
  match xs with
  | [] => []
  | x :: rest => x ++ flat_map (fun y => sep ++ y) rest
  end.
Proof.
  induction xs as [|x xs IH]; [reflexivity|].
  destruct xs as [|y rest].
  - cbn. now rewrite app_nil_r.
  - change (join sep (x :: y :: rest))
      with (x ++ sep ++ join sep (y :: rest)).
    rewrite IH. cbn [flat_map]. now rewrite <- !app_assoc.
Qed.

(** The saved text, code unit by code unit: 34 is the double quote, 10
    the line feed. *)
Lemma csvContent_spelled_out (pd : ProductData) :
  csvContent pd =
  ([34] ++ lit "Product Name" ++ [34] ++ lit "," ++
   [34] ++ lit "Original Price" ++ [34] ++ lit "," ++
   [34] ++ lit "Discounted Price" ++ [34] ++ lit "," ++
   [34] ++ lit "Description" ++ [34] ++ lit "," ++
   [34] ++ lit "Variants" ++ [34] ++ lit "," ++
   [34] ++ lit "Image URLs" ++ [34] ++
   [10] ++
   [34] ++ product_name pd ++ [34] ++ lit "," ++
   [34] ++ original (price pd) ++ [34] ++ lit "," ++
   [34] ++ match discounted (price pd) with
           | Some d => d
           | None => []
           end ++ [34] ++ lit "," ++
   [34] ++ flat_map (fun c => if N.eqb c 34 then [34; 34] else [c])
                    (description pd) ++ [34] ++ lit "," ++
   [34] ++ match variants pd with
           | [] => []
           | v :: vs => v ++ flat_map (fun x => lit "; " ++ x) vs
           end ++ [34] ++ lit "," ++
   [34] ++ match image_urls pd with
           | [] => []
           | u :: us => u ++ flat_map (fun x => lit "; " ++ x) us
           end ++ [34])%N.
Proof.
  unfold csvContent, data, headers. cbn [map join]. unfold in_quotes.
  rewrite or_empty_spec, replaceAll_flat_map, !join_flat_map.
  rewrite <- !app_assoc. reflexivity.
Qed.

(** C3. For a stored record, [exportToCSV] saves, as [amazon-product.csv],
    a header line and a data line separated by one line feed.  Each line is
    six fields joined by commas, each field between two double quotes
    (code unit 34), in the order name, original price, discounted price
    (empty when absent), description (each of its quotes written twice),
    variants joined by [; ], image URLs joined by [; ]; field by field the
    data line follows the header. *)
Theorem exportToCSV_layout (s : State ProductData) (pd : ProductData) :
  productData s = Some pd ->
  exportToCSV s =
  (Ok tt, s,
   [CSaveAs
      ([34] ++ lit "Product Name" ++ [34] ++ lit "," ++
       [34] ++ lit "Original Price" ++ [34] ++ lit "," ++
       [34] ++ lit "Discounted Price" ++ [34] ++ lit "," ++
       [34] ++ lit "Description" ++ [34] ++ lit "," ++
       [34] ++ lit "Variants" ++ [34] ++ lit "," ++
       [34] ++ lit "Image URLs" ++ [34] ++
       [10] ++
       [34] ++ product_name pd ++ [34] ++ lit "," ++
       [34] ++ original (price pd) ++ [34] ++ lit "," ++
       [34] ++ match discounted (price pd) with
               | Some d => d
               | None => []
               end ++ [34] ++ lit "," ++
       [34] ++ flat_map (fun c => if N.eqb c 34 then [34; 34] else [c])
                        (description pd) ++ [34] ++ lit "," ++
       [34] ++ match variants pd with
               | [] => []
               | v :: vs => v ++ flat_map (fun x => lit "; " ++ x) vs
               end ++ [34] ++ lit "," ++
       [34] ++ match image_urls pd with
               | [] => []
               | u :: us => u ++ flat_map (fun x => lit "; " ++ x) us
               end ++ [34])%N
      (lit "text/csv;charset=utf-8;")
      (lit "amazon-product.csv")]) /\
  List.length headers = 6 /\
  List.length (data pd) = 6 /\
  combine headers (data pd) =
  [(lit "Product Name", product_name pd);
   (lit "Original Price", original (price pd));
   (lit "Discounted Price",
    match discounted (price pd) with Some d => d | None => [] end);
   (lit "Description",
    flat_map (fun c => if N.eqb c 34 then [34; 34] else [c])%N
             (description pd));
   (lit "Variants",
    match variants pd with
    | [] => []
    | v :: vs => v ++ flat_map (fun x => lit "; " ++ x) vs
    end);
   (lit "Image URLs",
    match image_urls pd with
    | [] => []
    | u :: us => u ++ flat_map (fun x => lit "; " ++ x) us
    end)].
Proof.
  intros Hpd. repeat split.
  - unfold exportToCSV, bind, get, call. rewrite Hpd.
    now rewrite csvContent_spelled_out.
  - unfold data, headers. cbn [combine].
    now rewrite or_empty_spec, replaceAll_flat_map, !join_flat_map.
Qed.

Lemma exportToCSV_layout_witness :
  let pd :=
    mkProductData (lit "Widget") (mkPrice (lit "$10.00") None)
                  (lit "Great " ++ [34] ++ lit "value" ++ [34] ++ lit " item")%N
                  [lit "Red"; lit "Blue"] [] in
  calls_of (exportToCSV (mkState [] false (Some pd))) =
  [CSaveAs
     ([34] ++ lit "Product Name" ++ [34; 44; 34] ++ lit "Original Price" ++
      [34; 44; 34] ++ lit "Discounted Price" ++ [34; 44; 34] ++
      lit "Description" ++ [34; 44; 34] ++ lit "Variants" ++
      [34; 44; 34] ++ lit "Image URLs" ++ [34] ++
      [10] ++
      [34] ++ lit "Widget" ++ [34; 44; 34] ++ lit "$10.00" ++
      [34; 44; 34] ++ [34; 44; 34] ++
      lit "Great " ++ [34; 34] ++ lit "value" ++ [34; 34] ++ lit " item" ++
      [34; 44; 34] ++ lit "Red; Blue" ++ [34; 44; 34] ++ [34])%N
     (lit "text/csv;charset=utf-8;")
     (lit "amazon-product.csv")].
Proof.
  intros pd.
  destruct (@exportToCSV_layout (mkState [] false (Some pd)) pd) as [H _];
    [reflexivity|].
  rewrite H. reflexivity.
Defined.

(** Where no field but the description holds a double quote, the export
    is the one in which every field is escaped.  *)
Lemma csvContent_escaped_when_only_description_has_quotes (pd : ProductData) :
  ~ In dquote (product_name pd) ->
  ~ In dquote (original (price pd)) ->
  ~ In dquote (or_empty (discounted (price pd))) ->
  ~ In dquote (join (lit "; ") (variants pd)) ->
  ~ In dquote (join (lit "; ") (image_urls pd)) ->
  csvContent pd = all_fields_escaped pd.
Proof.
  intros Hn Ho Hd Hv Hi.
  unfold csvContent, all_fields_escaped, data, record_fields, escape_quotes.
  rewrite <- or_empty_spec. cbn [map].
  now rewrite (@replaceAll_absent dquote [dquote; dquote] _ Hn),
              (@replaceAll_absent dquote [dquote; dquote] _ Ho),
              (@replaceAll_absent dquote [dquote; dquote] _ Hd),
              (@replaceAll_absent dquote [dquote; dquote] _ Hv),
              (@replaceAll_absent dquote [dquote; dquote] _ Hi).
Qed.

(** C1, on a product name that holds a double quote. The description has
    its quotes doubled; the quote in the name is written as it is, so the
    saved text is not the one in which every field is escaped. *)
Theorem exportToCSV_name_quote_not_doubled :
  let pd :=
    mkProductData (lit "Monitor 27" ++ [dquote])
                  (mkPrice (lit "$199.00") None)
                  (lit "Great " ++ [dquote] ++ lit "value" ++ [dquote]
                   ++ lit " item")
                  [] [] in
  calls_of (exportToCSV (mkState [] false (Some pd))) =
  [CSaveAs
     (join (lit ",") (map in_quotes headers)
      ++ [newline] ++
      [dquote] ++ lit "Monitor 27" ++ [dquote] ++ [dquote] ++ lit "," ++
      [dquote] ++ lit "$199.00" ++ [dquote] ++ lit "," ++
      [dquote] ++ [dquote] ++ lit "," ++
      [dquote] ++ lit "Great " ++ [dquote; dquote] ++ lit "value"
               ++ [dquote; dquote] ++ lit " item" ++ [dquote] ++ lit "," ++
      [dquote] ++ [dquote] ++ lit "," ++
      [dquote] ++ [dquote])
     (lit "text/csv;charset=utf-8;")
     (lit "amazon-product.csv")] /\
  csvContent pd <> all_fields_escaped pd.
Proof.
  split; [reflexivity | discriminate].
Qed.

(** C7. For a stored record, [exportToExcel] writes, as
    [amazon-product.xlsx], a workbook with the one sheet [Product Data];
    the sheet has a header row with the six labels of the delimited-text
    export and one data row with the six values of the record in the same
    order: name, original price, discounted price (empty when absent),
    description, variants joined by [; ], image URLs joined by [; ].
    These are the values of the delimited-text data line, whose
    description alone is further escaped. *)
Theorem exportToExcel_layout (s : State ProductData) (pd : ProductData) :
  productData s = Some pd ->
  exportToExcel s =
  (Ok tt, s,
   [CWriteFile
      [(lit "Product Data",
        [map Some headers;
         [Some (product_name pd);
          Some (original (price pd));
          Some (match discounted (price pd) with Some d => d | None => [] end);
          Some (description pd);
          Some (join (lit "; ") (variants pd));
          Some (join (lit "; ") (image_urls pd))]])]
      (lit "amazon-product.xlsx")]) /\
  data pd =
  [product_name pd;
   original (price pd);
   match discounted (price pd) with Some d => d | None => [] end;
   escape_quotes (description pd);
   join (lit "; ") (variants pd);
   join (lit "; ") (image_urls pd)].
Proof.
  intros Hpd. split.
  - unfold exportToExcel, bind, get, call. rewrite Hpd.
    unfold workbook, sheet_rows. rewrite or_empty_spec. reflexivity.
  - unfold data. now rewrite or_empty_spec.
Qed.

Lemma exportToExcel_layout_witness :
  let pd := mkProductData (lit "Widget") (mkPrice (lit "$10.00") None)
                          [] [lit "Red"; lit "Blue"] [] in
  calls_of (exportToExcel (mkState [] false (Some pd))) =
  [CWriteFile
     [(lit "Product Data",
       [map Some headers;
        [Some (lit "Widget"); Some (lit "$10.00"); Some []; Some [];
         Some (lit "Red; Blue"); Some []]])]
     (lit "amazon-product.xlsx")].
Proof.
  intros pd.
  destruct (@exportToExcel_layout (mkState [] false (Some pd)) pd) as [H _];
    [reflexivity|].
  rewrite H. reflexivity.
Defined.

(** C8. With no record stored, each export returns at once: nothing is
    saved, nothing is written, no call is made and the cells are as
    before. *)
Theorem exports_without_record (s : State ProductData) :
  productData s = None ->
  exportToCSV s = (Ok tt, s, []) /\
  exportToExcel s = (Ok tt, s, []).
Proof.
  intros H. unfold exportToCSV, exportToExcel, bind, get. now rewrite H.
Qed.

Lemma exports_without_record_witness :
  exportToCSV (mkState (lit "https://www.amazon.in/widget/dp/B000123456")
                       false None) =
  (Ok tt,
   mkState (lit "https://www.amazon.in/widget/dp/B000123456") false None,
   []) /\
  calls_of (exportToExcel (@initial ProductData).(st)) = [].
Proof.
  split.
  - apply (@exports_without_record
             (mkState (lit "https://www.amazon.in/widget/dp/B000123456")
                      false None)).
    reflexivity.
  - destruct (@exports_without_record (@initial ProductData).(st)) as [_ H];
      [reflexivity|].
    now rewrite H.
Defined.

(** C9. A discounted price that is present but falsy (for a string: empty)
    is rendered by both exports as an absent one is.  In the delimited text
    the third field of the data line is the empty string between its two
    quotes; in the workbook the third cell of the data row holds the empty
    string; and the saved text and the workbook are those of the record
    without a discounted price. *)
Theorem falsy_discount_as_absent (pd : ProductData) (d : jsstring) :
  discounted (price pd) = Some d ->
  truthy d = false ->
  nth_error (data pd) 2 = Some [] /\
  nth_error (data (without_discount pd)) 2 = Some [] /\
  csvContent pd = csvContent (without_discount pd) /\
  workbook pd = workbook (without_discount pd) /\
  csvContent pd =
  ([34] ++ lit "Product Name" ++ [34] ++ lit "," ++
   [34] ++ lit "Original Price" ++ [34] ++ lit "," ++
   [34] ++ lit "Discounted Price" ++ [34] ++ lit "," ++
   [34] ++ lit "Description" ++ [34] ++ lit "," ++
   [34] ++ lit "Variants" ++ [34] ++ lit "," ++
   [34] ++ lit "Image URLs" ++ [34] ++
   [10] ++
   [34] ++ product_name pd ++ [34] ++ lit "," ++
   [34] ++ original (price pd) ++ [34] ++ lit "," ++
   [34] ++ [34] ++ lit "," ++
   [34] ++ flat_map (fun c => if N.eqb c 34 then [34; 34] else [c])
                    (description pd) ++ [34] ++ lit "," ++
   [34] ++ match variants pd with
           | [] => []
           | v :: vs => v ++ flat_map (fun x => lit "; " ++ x) vs
           end ++ [34] ++ lit "," ++
   [34] ++ match image_urls pd with
           | [] => []
           | u :: us => u ++ flat_map (fun x => lit "; " ++ x) us
           end ++ [34])%N /\
  workbook pd =
  [(lit "Product Data",
    [[Some (lit "Product Name"); Some (lit "Original Price");
      Some (lit "Discounted Price"); Some (lit "Description");
      Some (lit "Variants"); Some (lit "Image URLs")];
     [Some (product_name pd);
      Some (original (price pd));
      Some [];
      Some (description pd);
      Some (match variants pd with
            | [] => []
            | v :: vs => v ++ flat_map (fun x => lit "; " ++ x) vs
            end);
      Some (match image_urls pd with
            | [] => []
            | u :: us => u ++ flat_map (fun x => lit "; " ++ x) us
            end)]])].
Proof.
  intros Hd Ht.
  assert (Hnil : d = []) by (destruct d; [reflexivity|discriminate]).
  subst d.
  assert (E : or_empty (discounted (price pd)) = []) by now rewrite Hd.
  split; [|split; [|split; [|split; [|split]]]].
  - unfold data. cbn [nth_error]. now rewrite E.
  - reflexivity.
  - unfold csvContent, data, without_discount.
    cbn [price discounted original product_name description variants
         image_urls or_empty]. now rewrite E.
  - unfold workbook, sheet_rows, without_discount.
    cbn [price discounted original product_name description variants
         image_urls or_empty]. now rewrite E.
  - rewrite csvContent_spelled_out, Hd. reflexivity.
  - unfold workbook, sheet_rows. rewrite E, !join_flat_map. reflexivity.
Qed.

Lemma falsy_discount_as_absent_witness :
  let pd := mkProductData (lit "Widget") (mkPrice (lit "$10.00") (Some []))
                          (lit "A widget") [] [] in
  csvContent pd = csvContent (without_discount pd) /\
  workbook pd = workbook (without_discount pd) /\
  workbook pd =
  [(lit "Product Data",
    [[Some (lit "Product Name"); Some (lit "Original Price");
      Some (lit "Discounted Price"); Some (lit "Description");
      Some (lit "Variants"); Some (lit "Image URLs")];
     [Some (lit "Widget"); Some (lit "$10.00"); Some [];
      Some (lit "A widget"); Some []; Some []]])].
Proof.
  intros pd.
  destruct (@falsy_discount_as_absent pd []) as (_ & _ & H1 & H2 & _ & H3);
    [reflexivity|reflexivity|].
  split; [exact H1 | split; [exact H2 | exact H3]].
Defined.

(** * Further properties *)

(** ** The URL gate and the blank check *)

Lemma occurs_in_In (p s : jsstring) (c : N) :
  occurs_in p s -> In c p -> In c s.
Proof.
  intros (a & b & ->) Hc. apply in_or_app. right. apply in_or_app. now left.
Qed.

Lemma occurs_in_context (p s a b : jsstring) :
  occurs_in p s -> occurs_in p (a ++ s ++ b).
Proof.
  intros (x & y & ->). exists (a ++ x), (y ++ b).
  now rewrite <- !app_assoc.
Qed.

Lemma occurs_in_rev (p s : jsstring) :
  occurs_in p s -> occurs_in (rev p) (rev s).
Proof.
  intros (a & b & ->). exists (rev b), (rev a).
  now rewrite !rev_app_distr, <- app_assoc.
Qed.

Lemma includes_rev (s p : jsstring) :
  includes (rev s) (rev p) = includes s p.
Proof.
  apply eq_true_iff_eq. rewrite !includes_occurs. split; intros H.
  - apply occurs_in_rev in H. now rewrite !rev_involutive in H.
  - now apply occurs_in_rev.
Qed.

Lemma includes_trimStart (s : jsstring) (c : N) (q : jsstring) :
  isWhiteSpace c = false ->
  includes (trimStart s) (c :: q) = includes s (c :: q).
Proof.
  intros Hc. induction s as [|d s IH]; [reflexivity|].
  cbn [trimStart]. destruct (isWhiteSpace d) eqn:Hd; [|reflexivity].
  rewrite IH. cbn [includes startsWith].
  destruct (N.eqb_spec c d) as [->|_]; [congruence|reflexivity].
Qed.

Lemma includes_trimEnd (s : jsstring) (c : N) (q : jsstring) :
  isWhiteSpace c = false ->
  includes (trimEnd s) (rev (c :: q)) = includes s (rev (c :: q)).
Proof.
  intros Hc. unfold trimEnd.
  rewrite includes_rev, (@includes_trimStart _ _ _ Hc), <- includes_rev.
  now rewrite !rev_involutive.
Qed.

(** A pattern that neither starts nor ends with white space occurs in the
    trimmed string exactly when it occurs in the string. *)
Lemma includes_trim (s p : jsstring) (c c' : N) (q q' : jsstring) :
  p = c :: q ->
  rev p = c' :: q' ->
  isWhiteSpace c = false ->
  isWhiteSpace c' = false ->
  includes (trim s) p = includes s p.
Proof.
  intros Hp Hr Hc Hc'. unfold trim.
  assert (E : p = rev (c' :: q')) by (now rewrite <- Hr, rev_involutive).
  rewrite E at 1. rewrite (@includes_trimEnd _ _ _ Hc'), <- E.
  rewrite Hp. now apply includes_trimStart.
Qed.

(** X1. [handleScrape] answers with the [URL Required] toast exactly on the
    inputs made of white space only (the empty input among them). *)
Theorem url_required_iff_white_space (D : Type) (s : State D) :
  calls_of (handleScrape s) = [CToast UrlRequired] <->
  forallb isWhiteSpace (url s) = true.
Proof.
  rewrite <- trim_blank_iff. split.
  - intros H. destruct (truthy (trim (url s))) eqn:B; [|reflexivity].
    destruct (validateAmazonUrl (url s)) eqn:V.
    + rewrite (handleScrape_accepted _ B V) in H. discriminate.
    + rewrite (handleScrape_invalid _ B V) in H. discriminate.
  - intros B. now rewrite (handleScrape_blank _ B).
Qed.

(** X2. White space around the input does not change the verdict of
    [validateAmazonUrl]: the trimmed input is accepted exactly when the
    input is. *)
Theorem validateAmazonUrl_trim (url : jsstring) :
  validateAmazonUrl (trim url) = validateAmazonUrl url.
Proof.
  unfold validateAmazonUrl.
  assert (T : forall p c q c' q',
             p = c :: q -> rev p = c' :: q' ->
             isWhiteSpace c = false -> isWhiteSpace c' = false ->
             includes (trim url) p = includes url p).
  { intros. eapply includes_trim; eassumption. }
  rewrite (T (lit "amazon.") _ _ _ _ eq_refl eq_refl eq_refl eq_refl).
  rewrite (T (lit "/dp/") _ _ _ _ eq_refl eq_refl eq_refl eq_refl).
  rewrite (T (lit "/gp/") _ _ _ _ eq_refl eq_refl eq_refl eq_refl).
  reflexivity.
Qed.

(** X3. An input made of white space only does not pass
    [validateAmazonUrl] either. *)
Theorem validateAmazonUrl_rejects_white_space (url : jsstring) :
  forallb isWhiteSpace url = true ->
  validateAmazonUrl url = false.
Proof.
  intros H. destruct (validateAmazonUrl url) eqn:V; [|reflexivity].
  unfold validateAmazonUrl in V. apply andb_true_iff in V as [V _].
  apply includes_occurs in V.
  assert (Ha : In 97%N url).
  { apply (@occurs_in_In _ _ 97%N V). now left. }
  rewrite forallb_forall in H. now apply H in Ha.
Qed.

Lemma validateAmazonUrl_rejects_white_space_witness :
  validateAmazonUrl [32; 9; 160; 10]%N = false.
Proof.
  apply validateAmazonUrl_rejects_white_space. reflexivity.
Defined.

(** X4. The check is by occurrence: whatever is written before and after
    an accepted input, the result is accepted as well. *)
Theorem validateAmazonUrl_context (url before after : jsstring) :
  validateAmazonUrl url = true ->
  validateAmazonUrl (before ++ url ++ after) = true.
Proof.
  unfold validateAmazonUrl.
  rewrite !andb_true_iff, !orb_true_iff, !includes_occurs.
  intros [Ha [Hm|Hm]]; (split; [now apply occurs_in_context|]);
    [left|right]; now apply occurs_in_context.
Qed.

Lemma validateAmazonUrl_context_witness :
  validateAmazonUrl
    (lit "https://example.org/?next=" ++ lit "amazon./dp/" ++ lit "#top")
  = true.
Proof.
  apply validateAmazonUrl_context. reflexivity.
Defined.

(** ** The session, step by step *)

Section PageFacts.

Variable D : Type.
Implicit Types (s : State D) (w : World D) (o : HttpOutcome D) (e : Event D).

Lemma settled_rejected_with s o :
  rejected o = true ->
  handleScrape_settled o s =
  (Ok tt, mkState (url s) false (productData s),
   [CConsoleError match o with
                  | NoResponse => NetworkError
                  | Responded status _ => BadStatus status
                  end;
    CToast ScrapeFailed]).
Proof.
  intros H. unfold handleScrape_settled, finally, try_catch, bind, await_post.
  destruct o as [|status d]; cbn in H; [reflexivity|].
  apply negb_true_iff in H. now rewrite H.
Qed.

Lemma rejected_or_fulfilled o :
  rejected o = true \/
  exists status d, o = Responded status d /\ validateStatus status = true.
Proof.
  destruct o as [|status d]; cbn; [now left|].
  destruct (validateStatus status) eqn:V; [right|now left].
  now exists status, d.
Qed.

(** [dispatch] delivers an event in one of the five ways of [delivers],
    and in no other. *)
Lemma dispatch_delivers e w w' :
  dispatch e w = Some w' <-> delivers e w w'.
Proof.
  split.
  - intros Hstep. destruct e as [text| |o]; cbn [dispatch] in Hstep.
    + unfold input_disabled in Hstep.
      destruct (loading (st w)) eqn:L; [discriminate|].
      injection Hstep as <-. unfold run_handler, setUrl. cbn.
      rewrite L, !app_nil_r. now constructor.
    + unfold button_disabled in Hstep.
      destruct (loading (st w)) eqn:L; [discriminate|].
      destruct (truthy (trim (url (st w)))) eqn:B; [|discriminate].
      injection Hstep as <-. unfold run_handler, state_after, calls_of.
      destruct (validateAmazonUrl (url (st w))) eqn:V.
      * rewrite (handleScrape_accepted _ B V). cbn. now constructor.
      * rewrite (handleScrape_invalid _ B V). cbn. rewrite app_nil_r.
        now constructor.
    + destruct (inflight w) as [|u rest] eqn:F; [discriminate|].
      injection Hstep as <-. unfold on_settle, state_after, calls_of.
      rewrite F. cbn [tl].
      destruct (rejected_or_fulfilled o) as [R|(status & d & -> & V)].
      * rewrite (settled_rejected_with _ _ R). cbn.
        now apply delivers_rejected with (u := u).
      * rewrite (settled_fulfilled _ _ d V). cbn.
        now apply delivers_fulfilled with (u := u).
  - intros Hd. destruct Hd as [text w L|w L B V|w L B V
                               |status d u rest w F V|o u rest w F R];
      cbn [dispatch].
    + unfold input_disabled. rewrite L. unfold run_handler, setUrl. cbn.
      now rewrite L, !app_nil_r.
    + unfold button_disabled. rewrite L, B. cbn.
      unfold run_handler, state_after, calls_of.
      rewrite (handleScrape_invalid _ B V). cbn. now rewrite app_nil_r.
    + unfold button_disabled. rewrite L, B. cbn.
      unfold run_handler, state_after, calls_of.
      now rewrite (handleScrape_accepted _ B V).
    + rewrite F. unfold on_settle, state_after, calls_of.
      now rewrite F, (settled_fulfilled _ _ d V).
    + rewrite F. unfold on_settle, state_after, calls_of.
      now rewrite F, (settled_rejected_with _ _ R).
Qed.

Lemma posts_app (a b : list Call) : posts (a ++ b) = posts a ++ posts b.
Proof. apply flat_map_app. Qed.

Lemma toasts_app (a b : list Call) : toasts (a ++ b) = toasts a ++ toasts b.
Proof. apply flat_map_app. Qed.

(** While a request is outstanding, the input is non-blank and passes
    [validateAmazonUrl]. *)
Lemma reachable_loading_url_accepted w :
  reachable w ->
  loading (st w) = true ->
  truthy (trim (url (st w))) = true /\ validateAmazonUrl (url (st w)) = true.
Proof.
  induction 1 as [|e w w' _ IH Hstep]; [discriminate|].
  apply dispatch_delivers in Hstep.
  destruct Hstep; cbn; intros L; try congruence. now split.
Qed.

End PageFacts.

Section SessionFacts.

Variable D : Type.
Implicit Types (s : State D) (w : World D) (o : HttpOutcome D) (e : Event D).

Lemma reachable_pending (u : jsstring) :
  truthy (trim u) = true ->
  validateAmazonUrl u = true ->
  reachable (mkWorld (mkState u true (@None D)) [u]
                     [CAxiosPost (lit "/scrape") u]).
Proof.
  intros B V.
  apply reach_step with (e := Click)
                        (w := mkWorld (mkState u false (@None D)) [] []).
  - apply reach_step with (e := Edit_ D u) (w := initial);
      [constructor | reflexivity].
  - apply dispatch_delivers.
    now apply (@delivers_click_accepted D
                 (mkWorld (mkState u false None) [] [])).
Qed.

Lemma reachable_succeeded (u : jsstring) (d : D) :
  truthy (trim u) = true ->
  validateAmazonUrl u = true ->
  reachable (mkWorld (mkState u false (Some d)) []
                     [CAxiosPost (lit "/scrape") u; CToast ScrapeSuccess]).
Proof.
  intros B V.
  apply reach_step with (e := Settle (Responded 200 d))
    (w := mkWorld (mkState u true (@None D)) [u]
                  [CAxiosPost (lit "/scrape") u]).
  - now apply reachable_pending.
  - reflexivity.
Qed.

(** X5. When the request is answered with a status in 200..299, the
    continuation of [handleScrape] stores the body of the response in place
    of whatever record was stored, clears [loading], keeps the input and
    raises the success toast and nothing else; the status is
    [Succeeded]. *)
Theorem fulfilled_scrape_replaces_record w (code : Z) (d : D) :
  validateStatus code = true ->
  productData (st (on_settle (Responded code d) w)) = Some d /\
  status (on_settle (Responded code d) w) = Succeeded /\
  loading (st (on_settle (Responded code d) w)) = false /\
  url (st (on_settle (Responded code d) w)) = url (st w) /\
  log (on_settle (Responded code d) w) = log w ++ [CToast ScrapeSuccess].
Proof.
  intros V. unfold on_settle, status, state_after, calls_of.
  rewrite (settled_fulfilled (st w) _ d V).
  cbn [fst snd st inflight log loading url productData].
  now rewrite last_scrape_result_snoc.
Qed.

(** X6. However the request ends, the continuation of [handleScrape]
    completes without throwing, clears [loading], leaves the input as it
    is, sends no request and raises exactly one toast: the failure toast
    when axios rejects, the success toast otherwise. *)
Theorem settled_always_clears_loading s o :
  result_of (handleScrape_settled o s) = Ok tt /\
  loading (state_after (handleScrape_settled o s)) = false /\
  url (state_after (handleScrape_settled o s)) = url s /\
  posts (calls_of (handleScrape_settled o s)) = [] /\
  toasts (calls_of (handleScrape_settled o s)) =
  [if rejected o then ScrapeFailed else ScrapeSuccess].
Proof.
  destruct (rejected_or_fulfilled o) as [R|(status & d & -> & V)].
  - rewrite (settled_rejected_with s _ R), R. now cbn.
  - rewrite (settled_fulfilled s _ d V). cbn. rewrite V. now cbn.
Qed.

(** X9. Every request the page has sent went to [/scrape] with a body
    that is not blank and passes [validateAmazonUrl]. *)
Theorem posted_urls_were_accepted w (path u : jsstring) :
  reachable w ->
  In (CAxiosPost path u) (log w) ->
  path = lit "/scrape" /\
  truthy (trim u) = true /\
  validateAmazonUrl u = true.
Proof.
  intros Hreach. revert path u.
  induction Hreach as [|e w w' _ IH Hstep]; intros path u; [intros []|].
  apply dispatch_delivers in Hstep.
  destruct Hstep as [text w L|w L B V|w L B V
                     |status d x rest w F V|o x rest w F R];
    cbn [log]; rewrite ?in_app_iff; cbn [In]; try exact (IH path u).
  - intros [H|[H|[]]]; [now apply IH|discriminate].
  - intros [H|[H|[]]]; [now apply IH|].
    injection H as <- <-. auto.
  - intros [H|[H|[]]]; [now apply IH|discriminate].
  - intros [H|[H|[H|[]]]]; [now apply IH|discriminate|discriminate].
Qed.

(** X10. While [loading] is set on a reachable page, the one outstanding
    request is the one for the text that is in the input: that text is an
    accepted URL and no edit of the input is delivered. *)
Theorem pending_request_is_for_shown_url w :
  reachable w ->
  loading (st w) = true ->
  inflight w = [url (st w)] /\
  truthy (trim (url (st w))) = true /\
  validateAmazonUrl (url (st w)) = true /\
  forall text, dispatch (Edit_ D text) w = None.
Proof.
  intros Hreach L.
  pose proof (reachable_flight_matches_loading Hreach) as F.
  unfold flight_matches_loading in F. rewrite L in F.
  destruct (reachable_loading_url_accepted Hreach L) as [B V].
  repeat split; try assumption.
  intros text. cbn [dispatch]. unfold input_disabled. now rewrite L.
Qed.

(** X11. On a reachable page, the requests sent are as many as the
    outcome toasts raised (success or failure) plus the requests still
    outstanding: each request is reported once, when it settles. *)
Theorem requests_accounted w :
  reachable w ->
  List.length (posts (log w)) =
  List.length (filter is_outcome (toasts (log w))) + List.length (inflight w).
Proof.
  induction 1 as [|e w w' _ IH Hstep]; [reflexivity|].
  apply dispatch_delivers in Hstep.
  destruct Hstep as [text w L|w L B V|w L B V
                     |status d x rest w F V|o x rest w F R];
    cbn [log inflight];
    rewrite ?posts_app, ?toasts_app, ?filter_app, ?length_app; cbn;
    rewrite ?F in IH; cbn in IH; lia.
Qed.

End SessionFacts.

Lemma fulfilled_scrape_replaces_record_witness :
  let w : World nat :=
    mkWorld (mkState (lit "https://www.amazon.in/widget/dp/B000123456")
                     true (Some 7))
            [lit "https://www.amazon.in/widget/dp/B000123456"] [] in
  productData (st (on_settle (Responded 204 8) w)) = Some 8 /\
  status (on_settle (Responded 204 8) w) = Succeeded.
Proof.
  intros w.
  destruct (@fulfilled_scrape_replaces_record nat w 204 8) as (H1 & H2 & _);
    [reflexivity|].
  split; [exact H1 | exact H2].
Defined.

Lemma posted_urls_were_accepted_witness :
  let u := lit "https://www.amazon.in/widget/dp/B000123456" in
  lit "/scrape" = lit "/scrape" /\
  truthy (trim u) = true /\
  validateAmazonUrl u = true.
Proof.
  intros u.
  apply (@posted_urls_were_accepted nat
           (mkWorld (mkState u false (Some 7)) []
                    [CAxiosPost (lit "/scrape") u; CToast ScrapeSuccess])).
  - apply reachable_succeeded; reflexivity.
  - now left.
Defined.

Lemma pending_request_is_for_shown_url_witness :
  let u := lit "https://www.amazon.in/widget/dp/B000123456" in
  let w : World nat :=
    mkWorld (mkState u true None) [u] [CAxiosPost (lit "/scrape") u] in
  inflight w = [url (st w)] /\
  truthy (trim (url (st w))) = true /\
  validateAmazonUrl (url (st w)) = true /\
  forall text, dispatch (Edit_ nat text) w = None.
Proof.
  intros u w. apply pending_request_is_for_shown_url.
  - apply reachable_pending; reflexivity.
  - reflexivity.
Defined.

Lemma requests_accounted_witness :
  let u := lit "https://www.amazon.in/widget/dp/B000123456" in
  let w : World nat :=
    mkWorld (mkState u true None) [u] [CAxiosPost (lit "/scrape") u] in
  List.length (posts (log w)) =
  List.length (filter is_outcome (toasts (log w))) + List.length (inflight w).
Proof.
  intros u w. apply requests_accounted.
  apply reachable_pending; reflexivity.
Defined.

(** *** With product records as payloads

    The three properties below are about the page whose 2xx responses carry
    product records, the declared type of the [productData] cell: such a
    body is an object, so the cell that holds it is never tested as
    empty and the results section renders. *)

(** X7. When the 2xx responses carry product records, an event of the
    session either leaves the stored record as it is or is the arrival of
    a response with a status in 200..299, whose record becomes the stored
    one.  In particular no event removes a record. *)
Theorem record_changes_only_on_fulfilled
    (e : Event ProductData) (w w' : World ProductData) :
  dispatch e w = Some w' ->
  productData (st w') = productData (st w) \/
  exists code pd,
    e = Settle (Responded code pd) /\
    validateStatus code = true /\
    productData (st w') = Some pd.
Proof.
  intros Hstep. apply dispatch_delivers in Hstep.
  destruct Hstep as [text w L|w L B V|w L B V
                     |code pd u rest w F V|o u rest w F R];
    try (now left).
  right. now exists code, pd.
Qed.

Lemma record_changes_only_on_fulfilled_witness :
  let u := lit "https://www.amazon.in/widget/dp/B000123456" in
  let old := mkProductData (lit "Widget") (mkPrice (lit "$10.00") None)
                           [] [] [] in
  let new := mkProductData (lit "Gadget") (mkPrice (lit "$12.00") None)
                           [] [] [] in
  let w : World ProductData := mkWorld (mkState u true (Some old)) [u] [] in
  productData (st (on_settle (Responded 200 new) w)) = productData (st w) \/
  exists code pd,
    Settle (Responded 200 new) = Settle (Responded code pd) /\
    validateStatus code = true /\
    productData (st (on_settle (Responded 200 new) w)) = Some pd.
Proof.
  intros u old new w.
  apply (@record_changes_only_on_fulfilled (Settle (Responded 200 new)) w).
  reflexivity.
Defined.

(** X8. When the 2xx responses carry product records, on a page reached
    from the initial one a record is stored exactly when the success toast
    has been raised at some point. *)
Theorem record_iff_success_toast (w : World ProductData) :
  reachable w ->
  (productData (st w) <> None <-> In (CToast ScrapeSuccess) (log w)).
Proof.
  induction 1 as [|e w w' _ IH Hstep].
  - cbn. split; [congruence|tauto].
  - apply dispatch_delivers in Hstep.
    destruct Hstep as [text w L|w L B V|w L B V
                       |code pd u rest w F V|o u rest w F R];
      cbn [st log productData]; rewrite ?in_app_iff; cbn [In].
    + exact IH.
    + rewrite IH. split; [tauto|]. intros [H|[H|[]]]; [tauto|discriminate].
    + rewrite IH. split; [tauto|]. intros [H|[H|[]]]; [tauto|discriminate].
    + split; [tauto|discriminate].
    + rewrite IH. split; [tauto|].
      intros [H|[H|[H|[]]]]; [tauto|discriminate|discriminate].
Qed.

Lemma record_iff_success_toast_witness :
  let u := lit "https://www.amazon.in/widget/dp/B000123456" in
  let pd := mkProductData (lit "Widget") (mkPrice (lit "$10.00") None)
                          [] [] [] in
  let w : World ProductData :=
    mkWorld (mkState u false (Some pd)) []
            [CAxiosPost (lit "/scrape") u; CToast ScrapeSuccess] in
  productData (st w) <> None <-> In (CToast ScrapeSuccess) (log w).
Proof.
  intros u pd w. apply record_iff_success_toast.
  apply reachable_succeeded; reflexivity.
Defined.

(** X12. When the 2xx responses carry product records, after a request
    has settled, in success or in failure, the button is enabled again and
    a click sends the same URL once more. *)
Theorem retry_after_settle
    (w w' : World ProductData) (o : HttpOutcome ProductData) :
  reachable w ->
  dispatch (Settle o) w = Some w' ->
  dispatch Click w' =
  Some (mkWorld (mkState (url (st w)) true (productData (st w')))
                [url (st w)]
                (log w' ++ [CAxiosPost (lit "/scrape") (url (st w))])).
Proof.
  intros Hreach Hstep.
  pose proof (reachable_flight_matches_loading Hreach) as F.
  unfold flight_matches_loading in F.
  assert (L : loading (st w) = true).
  { destruct (loading (st w)); [reflexivity|].
    cbn [dispatch] in Hstep. now rewrite F in Hstep. }
  destruct (reachable_loading_url_accepted Hreach L) as [B V].
  rewrite L in F.
  apply dispatch_delivers in Hstep. apply dispatch_delivers.
  inversion Hstep as [| | |code pd u rest w0 F' V' E1 E2 E3
                      |o0 u rest w0 F' R' E1 E2 E3];
    subst; rewrite F in F'; injection F' as <- <-.
  - now apply (@delivers_click_accepted ProductData
      (mkWorld (mkState (url (st w)) false (Some pd)) []
               (log w ++ [CToast ScrapeSuccess]))).
  - now apply (@delivers_click_accepted ProductData
      (mkWorld (mkState (url (st w)) false (productData (st w))) []
               (log w ++ [CConsoleError _; CToast ScrapeFailed]))).
Qed.

Lemma retry_after_settle_witness :
  let u := lit "https://www.amazon.in/widget/dp/B000123456" in
  let pd := mkProductData (lit "Widget") (mkPrice (lit "$10.00") None)
                          [] [] [] in
  let w : World ProductData :=
    mkWorld (mkState u true None) [u] [CAxiosPost (lit "/scrape") u] in
  dispatch Click (on_settle (Responded 200 pd) w) =
  Some (mkWorld (mkState u true (Some pd)) [u]
                (log (on_settle (Responded 200 pd) w)
                 ++ [CAxiosPost (lit "/scrape") u])) /\
  dispatch Click (on_settle (Responded 500 pd) w) =
  Some (mkWorld (mkState u true None) [u]
                (log (on_settle (Responded 500 pd) w)
                 ++ [CAxiosPost (lit "/scrape") u])).
Proof.
  intros u pd w. split.
  - apply (@retry_after_settle w (on_settle (Responded 200 pd) w)
                               (Responded 200 pd)).
    + apply reachable_pending; reflexivity.
    + reflexivity.
  - apply (@retry_after_settle w (on_settle (Responded 500 pd) w)
                               (Responded 500 pd)).
    + apply reachable_pending; reflexivity.
    + reflexivity.
Defined.

(** ** The page and the exports *)

(** X13. An export button is on the page exactly when a record is stored.
    A click on it is then delivered and does one thing: it hands the file
    made from the stored record to the file sink, [amazon-product.csv] with
    the delimited text or [amazon-product.xlsx] with the workbook.  The
    cells and the outstanding requests are as before. *)
Theorem click_export_saves_record (b : ExportButton) (w : World ProductData) :
  match productData (st w) with
  | None => click_export b w = None
  | Some pd =>
      click_export b w =
      Some (mkWorld (st w) (inflight w)
              (log w ++
               [match b with
                | ExportCSV =>
                    CSaveAs (csvContent pd) (lit "text/csv;charset=utf-8;")
                            (lit "amazon-product.csv")
                | ExportExcel =>
                    CWriteFile (workbook pd) (lit "amazon-product.xlsx")
                end]))
  end.
Proof.
  unfold click_export, render, run_handler, state_after, calls_of.
  destruct (productData (st w)) as [pd|] eqn:E; cbn [results]; [|reflexivity].
  destruct b; unfold export_handler, exportToCSV, exportToExcel, bind, get;
    rewrite E; cbn; now rewrite app_nil_r.
Qed.






(** X15. The page shows a discounted price exactly when the discounted
    field of the two exports is not empty, and then it shows the text
    that is exported. *)
Theorem shown_discount_is_exported_discount (pd : ProductData) :
  (shown_discounted (render_results pd) = None <->
   or_empty (discounted (price pd)) = []) /\
  nth_error (data pd) 2 =
  Some (match shown_discounted (render_results pd) with
        | Some d => d
        | None => []
        end) /\
  map (XLSX.lookup (lit "Discounted Price")) (sheet_rows pd) =
  [Some (match shown_discounted (render_results pd) with
         | Some d => d
         | None => []
         end)].
Proof.
  unfold render_results, data, sheet_rows. cbn [shown_discounted nth_error].
  destruct (discounted (price pd)) as [[|c d]|]; cbn;
    (split; [split; congruence|split; reflexivity]).
Qed.

(** ** The delimited text, further *)

Lemma replaceAll_dquote_injective (a b : jsstring) :
  replaceAll dquote [dquote; dquote] a = replaceAll dquote [dquote; dquote] b ->
  a = b.
Proof.
  revert b. induction a as [|x a IH]; intros [|y b]; cbn [replaceAll].
  - reflexivity.
  - destruct (N.eqb y dquote); discriminate.
  - destruct (N.eqb x dquote); discriminate.
  - destruct (N.eqb_spec x dquote) as [->|Hx];
      destruct (N.eqb_spec y dquote) as [->|Hy]; cbn [app]; intros H.
    + injection H as H. f_equal. now apply IH.
    + injection H as Hy' _. congruence.
    + injection H as Hx' _. congruence.
    + injection H as -> H. f_equal. now apply IH.
Qed.

Lemma replaceAll_dquote_counts (s : jsstring) (c : N) :
  count_occ N.eq_dec (replaceAll dquote [dquote; dquote] s) c =
  if N.eqb c dquote
  then 2 * count_occ N.eq_dec s dquote
  else count_occ N.eq_dec s c.
Proof.
  induction s as [|x s IH]; cbn [replaceAll].
  - now destruct (N.eqb c dquote).
  - rewrite count_occ_app, IH. clear IH.
    destruct (N.eqb_spec x dquote) as [Ex|Hx];
      destruct (N.eqb_spec c dquote) as [Ec|Hc];
      try rewrite Ex; try rewrite Ec; cbn [count_occ].
    + destruct (N.eq_dec dquote dquote); [lia|congruence].
    + destruct (N.eq_dec dquote c); [congruence|reflexivity].
    + destruct (N.eq_dec x dquote); [congruence|reflexivity].
    + destruct (N.eq_dec x c); lia.
Qed.

(** X16. The escaping of the description loses nothing: two records whose
    description fields are the same in the delimited text have the same
    description. *)
Theorem description_field_determines_description (pd1 pd2 : ProductData) :
  nth_error (data pd1) 3 = nth_error (data pd2) 3 ->
  description pd1 = description pd2.
Proof.
  unfold data. cbn [nth_error]. intros H. injection H as H.
  now apply replaceAll_dquote_injective.
Qed.

Lemma description_field_determines_description_witness :
  description
    (mkProductData (lit "A") (mkPrice (lit "1") None)
                   (lit "say " ++ [dquote] ++ lit "hi" ++ [dquote]) [] []) =
  description
    (mkProductData (lit "B") (mkPrice (lit "2") (Some (lit "1")))
                   (lit "say " ++ [dquote] ++ lit "hi" ++ [dquote])
                   [lit "Red"] []).
Proof.
  apply description_field_determines_description. reflexivity.
Defined.

(** X17. In the description field of the delimited text the double quotes
    are twice those of the description and every other character occurs
    as often as in the description. *)
Theorem description_field_doubles_quotes (pd : ProductData) :
  exists field,
    nth_error (data pd) 3 = Some field /\
    count_occ N.eq_dec field dquote =
    2 * count_occ N.eq_dec (description pd) dquote /\
    forall c, c <> dquote ->
              count_occ N.eq_dec field c =
              count_occ N.eq_dec (description pd) c.
Proof.
  eexists. split; [reflexivity|]. split.
  - now rewrite replaceAll_dquote_counts.
  - intros c Hc. rewrite replaceAll_dquote_counts.
    now destruct (N.eqb_spec c dquote).
Qed.

Lemma join_separator_inside (sep a b : jsstring) (rest : list jsstring) :
  join sep ((a ++ sep ++ b) :: rest) = join sep (a :: b :: rest).
Proof.
  destruct rest as [|r rest]; cbn [join]; now rewrite <- ?app_assoc.
Qed.

(** X18. The joined fields do not keep the boundaries of their items: a
    variant (or an image URL) that holds the separator [; ] is exported, in
    the delimited text and in the workbook, exactly as the two items it
    splits into. *)
Theorem separator_inside_item_splits_it
    (name : jsstring) (p : Price) (desc a b : jsstring)
    (rest others : list jsstring) :
  let one := (a ++ lit "; " ++ b) :: rest in
  let two := a :: b :: rest in
  one <> two /\
  csvContent (mkProductData name p desc one others) =
  csvContent (mkProductData name p desc two others) /\
  workbook (mkProductData name p desc one others) =
  workbook (mkProductData name p desc two others) /\
  csvContent (mkProductData name p desc others one) =
  csvContent (mkProductData name p desc others two) /\
  workbook (mkProductData name p desc others one) =
  workbook (mkProductData name p desc others two).
Proof.
  intros one two. split.
  - intros H. apply (f_equal (@List.length jsstring)) in H. cbn in H. lia.
  - unfold csvContent, workbook, sheet_rows, data, one, two.
    cbn [product_name price description variants image_urls].
    rewrite !join_separator_inside. repeat split.
Qed.

(** X19. The line feeds of the delimited text are the one between the
    header line and the data line and those that the fields themselves
    hold, which are written as they are. *)
Theorem csvContent_line_feeds (pd : ProductData) :
  count_occ N.eq_dec (csvContent pd) newline =
  1 + list_sum (map (fun field => count_occ N.eq_dec field newline)
                    (record_fields pd)).
Proof.
  unfold csvContent, data, record_fields, headers.
  cbn [map join list_sum]. unfold in_quotes.
  rewrite or_empty_spec.
  repeat rewrite count_occ_app.
  rewrite replaceAll_dquote_counts.
  change (N.eqb newline dquote) with false. cbn iota.
  change (count_occ N.eq_dec [dquote] newline) with 0.
  change (count_occ N.eq_dec [newline] newline) with 1.
  change (count_occ N.eq_dec (lit ",") newline) with 0.
  change (count_occ N.eq_dec (lit "Product Name") newline) with 0.
  change (count_occ N.eq_dec (lit "Original Price") newline) with 0.
  change (count_occ N.eq_dec (lit "Discounted Price") newline) with 0.
  change (count_occ N.eq_dec (lit "Description") newline) with 0.
  change (count_occ N.eq_dec (lit "Variants") newline) with 0.
  change (count_occ N.eq_dec (lit "Image URLs") newline) with 0.
  unfold list_sum. cbn [fold_right]. lia.
Qed.
